(** * speech_obs.py: live subtitles from speech recognition to an OBS overlay

    A shallow embedding of [src/speech_obs.py].  Python strings are lists of
    code points, the three SDK clients (speech recogniser, chat completion,
    OBS websocket) are oracles that answer from the history of the run, and
    every function of the script is a computation over the trace of what the
    process printed and called. *)

From Stdlib Require Import List String Ascii ZArith NArith Bool Lia.
Import ListNotations.

Set Implicit Arguments.

(* ================================================================= *)
(** ** Python strings *)

Module PyStr.

(** A [str] is a sequence of Unicode code points; [len] counts them. *)
Definition char := N.
Definition str := list char.

(** An ASCII literal of the source as a [str]. *)
Definition lit (s : string) : str := map N_of_ascii (list_ascii_of_string s).

Definition len (s : str) : Z := Z.of_nat (List.length s).

(** [str.isspace] on one character: the code points CPython treats as
    whitespace in [split()] and [strip()]. *)
Definition isspace (c : char) : bool :=
  (((9 <=? c) && (c <=? 13)) || ((28 <=? c) && (c <=? 32))
   || (c =? 133) || (c =? 160) || (c =? 5760)
   || ((8192 <=? c) && (c <=? 8202))
   || (c =? 8232) || (c =? 8233) || (c =? 8239) || (c =? 8287)
   || (c =? 12288))%N.

(** [text.split()]: maximal runs of non-whitespace, in order.  [word] is
    the run being read, most recent character first. *)
Definition flush (word : str) (words : list str) : list str :=
  match word with
  | [] => words
  | _ :: _ => rev word :: words
  end.

Fixpoint split_from (word : str) (s : str) : list str :=
  match s with
  | [] => flush word []
  | c :: rest =>
      if isspace c then flush word (split_from [] rest)
      else split_from (c :: word) rest
  end.

Definition split (s : str) : list str := split_from [] s.

(** [sep.join(parts)]. *)
Fixpoint join (sep : str) (parts : list str) : str :=
  match parts with
  | [] => []
  | [p] => p
  | p :: more => p ++ sep ++ join sep more
  end.

(** [s.strip()]. *)
Fixpoint lstrip (s : str) : str :=
  match s with
  | [] => []
  | c :: rest => if isspace c then lstrip rest else s
  end.

Definition rstrip (s : str) : str := rev (lstrip (rev s)).
Definition strip (s : str) : str := rstrip (lstrip s).

End PyStr.

Import PyStr.

(* ================================================================= *)
(** ** Python values, exceptions and results *)

(** The values the script's expressions range over. *)
Inductive value : Type :=
| VNone
| VInt (n : Z)
| VStr (s : str)
| VList (items : list str).

(** Instances of [Exception]: what the interpreter raises on ill-typed
    operands or missing attributes, and whatever an SDK client raises
    (connection refused, API error, timeout, malformed response). *)
Inductive exception : Type :=
| TypeError
| AttributeError
| ClientError (what : str).

(** Everything a [raise] can carry.  [KeyboardInterrupt] and [SystemExit]
    derive from [BaseException] only, so [except Exception] lets them pass. *)
Inductive signal : Type :=
| Exc (e : exception)
| KeyboardInterrupt
| SystemExit (code : Z).

(** Outcome of evaluating an expression or of a client call. *)
Inductive pyresult (A : Type) : Type :=
| Returns (a : A)
| Fails (e : exception).
Arguments Fails {A} e.

Definition pybind {A B} (r : pyresult A) (k : A -> pyresult B) : pyresult B :=
  match r with
  | Returns a => k a
  | Fails e => Fails e
  end.

(** [a + b]. *)
Definition py_add (a b : value) : pyresult value :=
  match a, b with
  | VInt x, VInt y => Returns (VInt (x + y))
  | VStr x, VStr y => Returns (VStr (x ++ y))
  | VList x, VList y => Returns (VList (x ++ y))
  | _, _ => Fails TypeError
  end.

(** [len(a)]. *)
Definition py_len (a : value) : pyresult Z :=
  match a with
  | VStr s => Returns (len s)
  | VList l => Returns (Z.of_nat (List.length l))
  | _ => Fails TypeError
  end.

(** [a.strip()]. *)
Definition py_strip (a : value) : pyresult str :=
  match a with
  | VStr s => Returns (strip s)
  | _ => Fails AttributeError
  end.

(* ================================================================= *)
(** ** The world outside the script *)

(** What [obs_client.call] answers; the script only prints it. *)
Record response : Type := { response_repr : str }.

(** The object [client.chat.completions.create] returns, as the three
    observations the script makes on it. *)
Record completion : Type := {
  contains_error : pyresult bool;            (* "error" in completion *)
  choices_0_message_content : pyresult value; (* completion.choices[0].message.content *)
  completion_text : pyresult value           (* completion.text *)
}.

Inductive obs_request : Type :=
| SetTextGDIPlusProperties (source : str) (text : str)
| SetInputSettings (inputName : str) (text : str).

Record chat_request : Type := {
  model : str;
  messages : list (str * str)   (* role, content *)
}.

(** Client calls that return nothing the script looks at. *)
Inductive client_op : Type :=
| ObsConnect                    (* obs_client.connect() *)
| ObsDisconnect                 (* obs_client.disconnect() *)
| RecognizedConnect             (* recognizer.recognized.connect(on_recognized) *)
| StartContinuousRecognition    (* recognizer.start_continuous_recognition() *)
| StopContinuousRecognition.    (* recognizer.stop_continuous_recognition() *)

Inductive CancellationReason : Type := Error | EndOfStream | CancelledByUser.

Inductive ResultReason : Type :=
| NoMatch | Canceled | RecognizingSpeech | RecognizedSpeech
| RecognizingIntent | RecognizedIntent | TranslatingSpeech | TranslatedSpeech
| RecognizingKeyword | RecognizedKeyword.

Record CancellationDetails : Type := {
  cancel_reason : CancellationReason;
  error_details : str
}.

Record SpeechRecognitionResult : Type := {
  result_reason : ResultReason;
  result_text : str;
  cancellation_details : CancellationDetails
}.

Record SpeechRecognitionEventArgs : Type := { event_result : SpeechRecognitionResult }.

(** One piece of a printed line: literal text of the source, or a value
    substituted into an f-string (kept as the value, not rendered). *)
Inductive fpart : Type :=
| Lit (s : string)
| FStr (s : str)
| FList (l : list str)
| FVal (v : value)
| FExc (e : exception)
| FResp (r : response)
| FCancel (r : CancellationReason).

(** What the process did, oldest first. *)
Inductive event : Type :=
| Print (line : list fpart)
| ClientCall (op : client_op) (r : pyresult unit)
| ObsCall (req : obs_request) (r : pyresult response)
| ChatCreate (req : chat_request) (r : pyresult completion)
| Sleep (secs : Z) (interrupted : bool).

Definition trace := list event.

(** The services answer from the history of the run, so they may fail at
    any call and differently each time.  Client calls fail with instances
    of [Exception]; Ctrl+C reaches the main thread in [time.sleep]. *)
Record services : Type := {
  client_call : trace -> client_op -> pyresult unit;
  obs_call : trace -> obs_request -> pyresult response;
  chat_completions_create : trace -> chat_request -> pyresult completion;
  sleep_interrupted : trace -> Z -> bool
}.

(* ================================================================= *)
(** ** Computations: trace passing with exceptions *)

Inductive result (A : Type) : Type :=
| Normal (a : A)
| Raised (s : signal)
| Unfinished.                    (* the fuel of [while True] ran out *)
Arguments Raised {A} s.
Arguments Unfinished {A}.

Definition M (A : Type) : Type := trace -> result A * trace.

Definition ret {A} (a : A) : M A := fun t => (Normal a, t).

Definition bind {A B} (c : M A) (k : A -> M B) : M B :=
  fun t =>
    match c t with
    | (Normal a, t') => k a t'
    | (Raised s, t') => (Raised s, t')
    | (Unfinished, t') => (Unfinished, t')
    end.

Definition raise {A} (s : signal) : M A := fun t => (Raised s, t).

Definition lift {A} (r : pyresult A) : M A :=
  fun t =>
    match r with
    | Returns a => (Normal a, t)
    | Fails e => (Raised (Exc e), t)
    end.

Declare Scope py_scope.
Delimit Scope py_scope with py.
Notation "x <- c ;; k" := (bind c (fun x => k))
  (at level 100, c at next level, right associativity) : py_scope.
Notation "c ;; k" := (bind c (fun _ => k))
  (at level 100, right associativity) : py_scope.
Notation "x <~ r ;; k" := (pybind r (fun x => k))
  (at level 100, r at next level, right associativity) : py_scope.
Open Scope py_scope.

(** [try: body except Exception as e: handler]. *)
Definition try_except_Exception {A} (body : M A) (handler : exception -> M A) : M A :=
  fun t =>
    match body t with
    | (Raised (Exc e), t') => handler e t'
    | other => other
    end.

(** [try: body except KeyboardInterrupt: handler]. *)
Definition try_except_KeyboardInterrupt {A} (body : M A) (handler : M A) : M A :=
  fun t =>
    match body t with
    | (Raised KeyboardInterrupt, t') => handler t'
    | other => other
    end.

(** [print(...)]: a line on standard output; writing it does not fail. *)
Definition print (line : list fpart) : M unit :=
  fun t => (Normal tt, t ++ [Print line]).

(** Texts the overlay was asked to show through [SetInputSettings]. *)
Fixpoint overlay_updates (t : trace) : list str :=
  match t with
  | [] => []
  | ObsCall (SetInputSettings _ text) _ :: t' => text :: overlay_updates t'
  | _ :: t' => overlay_updates t'
  end.

Definition is_print (e : event) : bool :=
  match e with Print _ => true | _ => false end.

Definition is_chat (e : event) : bool :=
  match e with ChatCreate _ _ => true | _ => false end.

Definition is_obs (e : event) : bool :=
  match e with ObsCall _ _ => true | _ => false end.

(* ================================================================= *)
(** ** Configuration (lines 6-10) *)

Record config : Type := {
  OBS_HOST : str;
  OBS_PORT : Z;
  OBS_SOURCE : str;
  MAX_SUBTITLE_LENGTH : Z
}.

Definition source_config : config := {|
  OBS_HOST := lit "localhost";
  OBS_PORT := 4455;
  OBS_SOURCE := lit "Subtitles";
  MAX_SUBTITLE_LENGTH := 60
|}.

Definition space : str := lit " ".
Definition translation_error : str := lit "[Translation Error]".

(* ================================================================= *)
(** ** The script *)

Section Script.

Variable cfg : config.
Variable world : services.

(** A client call: ask the service, record call and answer. *)
Definition call_client (op : client_op) : M unit :=
  fun t => let r := client_call world t op in lift r (t ++ [ClientCall op r]).

Definition call_obs (req : obs_request) : M response :=
  fun t => let r := obs_call world t req in lift r (t ++ [ObsCall req r]).

Definition call_chat (req : chat_request) : M completion :=
  fun t =>
    let r := chat_completions_create world t req in
    lift r (t ++ [ChatCreate req r]).

(** [time.sleep(secs)] on the main thread. *)
Definition time_sleep (secs : Z) : M unit :=
  fun t =>
    let i := sleep_interrupted world t secs in
    ((if i then Raised KeyboardInterrupt else Normal tt), t ++ [Sleep secs i]).

(** Lines 22-34: connect to the overlay or leave with [exit(1)]. *)
Definition connect_obs : M unit :=
  try_except_Exception
    (call_client ObsConnect ;;
     print [Lit "Connected to OBS WebSocket!"] ;;
     _ <- call_obs (SetTextGDIPlusProperties (OBS_SOURCE cfg)
                      (lit "Testing connection to OBS...")) ;;
     print [Lit "Test subtitle sent to OBS!"])
    (fun e =>
       print [Lit "Failed to connect to OBS WebSocket: "; FExc e] ;;
       raise (SystemExit 1)).

(** Lines 38-49. *)
Definition update_obs_subtitles (text : str) : M unit :=
  try_except_Exception
    (response <- call_obs (SetInputSettings (OBS_SOURCE cfg) text) ;;
     print [Lit "OBS Response: "; FResp response] ;;
     print [Lit "Successfully updated OBS subtitles to: "; FStr text])
    (fun e => print [Lit "Error updating OBS: "; FExc e]).

(** The request of lines 55-61. *)
Definition translation_request (text : str) : chat_request := {|
  model := lit "gpt-4o";
  messages :=
    [ (lit "system",
       lit "You are a live translator. Translate Icelandic text to English for real-time subtitles.");
      (lit "user",
       lit "Translate the following Icelandic text to English:" ++ [10; 10]%N ++ text) ]
|}.

(** Lines 52-69. *)
Definition translate_text (text : str) : M str :=
  try_except_Exception
    (completion <- call_chat (translation_request text) ;;
     has_error <- lift (contains_error completion) ;;
     if negb has_error then
       content <- lift (choices_0_message_content completion) ;;
       lift (py_strip content)
     else
       shown <- lift (completion_text completion) ;;
       print [Lit "Translation error: "; FVal shown] ;;
       ret translation_error)
    (fun e =>
       print [Lit "Error during translation: "; FExc e] ;;
       ret translation_error).

(** The two lists [display_subtitles] mutates. *)
Record frame : Type := {
  current_chunk : list str;
  subtitle_chunks : list str
}.

(** Line 80, operand by operand:
    [len(" ".join(current_chunk) + len(word) + 1) <= MAX_SUBTITLE_LENGTH]. *)
Definition boundary_test (current_chunk : list str) (word : str) : pyresult bool :=
  a <~ py_add (VStr (join space current_chunk)) (VInt (len word)) ;;
  b <~ py_add a (VInt 1) ;;
  n <~ py_len b ;;
  Returns (n <=? MAX_SUBTITLE_LENGTH cfg)%Z.

(** Lines 79-86.  The frame is returned whatever the outcome, as it stands
    when the loop is left. *)
Fixpoint for_word_in (words : list str) (fr : frame) (t : trace)
  : result unit * frame * trace :=
  match words with
  | [] => (Normal tt, fr, t)
  | word :: rest =>
      match boundary_test (current_chunk fr) word with
      | Fails e => (Raised (Exc e), fr, t)
      | Returns true =>
          let grown := current_chunk fr ++ [word] in
          for_word_in rest
            {| current_chunk := grown; subtitle_chunks := subtitle_chunks fr |}
            (t ++ [Print [FList grown]])
      | Returns false =>
          let closed := subtitle_chunks fr ++ [join space (current_chunk fr)] in
          for_word_in rest
            {| current_chunk := [word]; subtitle_chunks := closed |}
            (t ++ [Print [FList [word]]])
      end
  end.

(** Lines 92-93. *)
Fixpoint for_chunk_in (chunks : list str) : M unit :=
  match chunks with
  | [] => ret tt
  | chunk :: rest => update_obs_subtitles chunk ;; for_chunk_in rest
  end.

(** Lines 71-93, with the frame at the end. *)
Definition display_subtitles_frame (text : str) (t : trace)
  : result unit * frame * trace :=
  let words := split text in
  let fr0 := {| current_chunk := []; subtitle_chunks := [] |} in
  match update_obs_subtitles text t with
  | (Normal _, t1) =>
      match for_word_in words fr0 t1 with
      | (Normal _, fr, t2) =>
          let fr' := {| current_chunk := current_chunk fr;
                        subtitle_chunks :=
                          subtitle_chunks fr ++ [join space (current_chunk fr)] |} in
          let t3 := t2 ++ [Print [Lit "Subtitle chunks: "; FList (subtitle_chunks fr')]] in
          let (r, t4) := for_chunk_in (subtitle_chunks fr') t3 in
          (r, fr', t4)
      | stopped => stopped
      end
  | (Raised s, t1) => (Raised s, fr0, t1)
  | (Unfinished, t1) => (Unfinished, fr0, t1)
  end.

Definition display_subtitles (text : str) : M unit :=
  fun t => let '(r, _, t') := display_subtitles_frame text t in (r, t').

(** Lines 95-108. *)
Definition on_recognized (event : SpeechRecognitionEventArgs) : M unit :=
  let res := event_result event in
  match result_reason res with
  | RecognizedSpeech =>
      print [Lit "Recognized (Icelandic): "; FStr (result_text res)] ;;
      translated_text <- translate_text (result_text res) ;;
      print [Lit "Translated (English): "; FStr translated_text] ;;
      display_subtitles translated_text
  | NoMatch => print [Lit "No speech could be recognized."]
  | Canceled =>
      let details := cancellation_details res in
      print [Lit "Recognition canceled: "; FCancel (cancel_reason details)] ;;
      match cancel_reason details with
      | Error => print [Lit "Error details: "; FStr (error_details details)]
      | _ => ret tt
      end
  | _ => ret tt
  end.

(** Lines 119-120: [while True: time.sleep(1)], for at most [fuel] rounds. *)
Fixpoint keep_running (fuel : nat) : M unit :=
  match fuel with
  | O => fun t => (Unfinished, t)
  | S fuel' => time_sleep 1 ;; keep_running fuel'
  end.

(** Lines 111-124. *)
Definition main (fuel : nat) : M unit :=
  call_client RecognizedConnect ;;
  call_client StartContinuousRecognition ;;
  print [Lit "Listening for speech. Press Ctrl+C to stop."] ;;
  try_except_KeyboardInterrupt
    (keep_running fuel)
    (print [Lit "Stopping..."] ;;
     call_client StopContinuousRecognition ;;
     call_client ObsDisconnect).

(** The module run as a script: connect (lines 22-34), then [main()]
    (lines 126-127). *)
Definition script (fuel : nat) : M unit :=
  connect_obs ;; main fuel.

End Script.

(** Exit status of the interpreter for the way the script ended. *)
Definition exit_status (r : result unit) : option Z :=
  match r with
  | Normal _ => Some 0%Z
  | Raised (SystemExit code) => Some code
  | Raised (Exc _) => Some 1%Z
  | Raised KeyboardInterrupt => Some 130%Z
  | Unfinished => None
  end.

(* ================================================================= *)
(** ** Vocabulary for traces *)

Section Logs.

Variable cfg : config.
Variable world : services.

Definition update_request (text : str) : obs_request :=
  SetInputSettings (OBS_SOURCE cfg) text.

(** What one call of [update_obs_subtitles] adds to the trace [t]. *)
Definition update_log (text : str) (t : trace) : trace :=
  let r := obs_call world t (update_request text) in
  ObsCall (update_request text) r ::
    match r with
    | Returns resp =>
        [ Print [Lit "OBS Response: "; FResp resp];
          Print [Lit "Successfully updated OBS subtitles to: "; FStr text] ]
    | Fails e => [ Print [Lit "Error updating OBS: "; FExc e] ]
    end.

(** What [translate_text] returns for the answer [r] of the chat client. *)
Definition translation_of (r : pyresult completion) : str :=
  match r with
  | Returns c =>
      match contains_error c, choices_0_message_content c with
      | Returns false, Returns (VStr content) => strip content
      | _, _ => translation_error
      end
  | Fails _ => translation_error
  end.

(** The request of lines 27-30. *)
Definition test_request : obs_request :=
  SetTextGDIPlusProperties (OBS_SOURCE cfg) (lit "Testing connection to OBS...").

(** The trace of lines 24-31 when the overlay answers. *)
Definition connected_log (resp : response) : trace :=
  [ ClientCall ObsConnect (Returns tt);
    Print [Lit "Connected to OBS WebSocket!"];
    ObsCall test_request (Returns resp);
    Print [Lit "Test subtitle sent to OBS!"] ].

(** Lines 113-116 when the recogniser starts. *)
Definition listening_log : trace :=
  [ ClientCall RecognizedConnect (Returns tt);
    ClientCall StartContinuousRecognition (Returns tt);
    Print [Lit "Listening for speech. Press Ctrl+C to stop."] ].

(** [n] quiet seconds, then Ctrl+C during the next [time.sleep(1)]. *)
Definition idle_log (n : nat) : trace :=
  repeat (Sleep 1 false) n ++ [Sleep 1 true].

(** Lines 122-124 when both calls return. *)
Definition shutdown_log : trace :=
  [ Print [Lit "Stopping..."];
    ClientCall StopContinuousRecognition (Returns tt);
    ClientCall ObsDisconnect (Returns tt) ].

(** The world answers every call of [log], made after [t], as [log] says. *)
Fixpoint answers (t : trace) (log : trace) : Prop :=
  match log with
  | [] => True
  | e :: log' =>
      match e with
      | Print _ => True
      | ClientCall op r => client_call world t op = r
      | ObsCall req r => obs_call world t req = r
      | ChatCreate req r => chat_completions_create world t req = r
      | Sleep secs i => sleep_interrupted world t secs = i
      end /\ answers (t ++ [e]) log'
  end.

End Logs.

Definition empty_frame : frame := {| current_chunk := []; subtitle_chunks := [] |}.

(* ================================================================= *)
(** ** What the specification asks of the chunker *)

(** Section 4.2 in its own words, to compare the loop of lines 79-88 with:
    words are appended to the chunk while the chunk, joined with single
    spaces, stays within [L]; a word that would exceed [L] closes the chunk
    and opens the next; the last chunk is emitted whatever its length. *)
Fixpoint spec_greedy_chunks (L : Z) (words : list str) (chunk : list str) : list str :=
  match words with
  | [] => [join space chunk]
  | word :: rest =>
      if (len (join space (chunk ++ [word])) <=? L)%Z
      then spec_greedy_chunks L rest (chunk ++ [word])
      else join space chunk :: spec_greedy_chunks L rest [word]
  end.

(** The round trip the specification asks for: the run ends normally and
    its chunks, joined with single spaces, are the text. *)
Definition chunks_reproduce (cfg : config) (world : services) (text : str) (t : trace) : Prop :=
  let '(r, fr, _) := display_subtitles_frame cfg world text t in
  r = Normal tt /\ join space (subtitle_chunks fr) = text.

(* ================================================================= *)
(** ** Worlds to run the script in *)

(** The chunk updates in what a run of [display_subtitles] added to the
    trace: the overlay updates that follow the full-text one of line 77. *)
Definition chunk_updates (log : trace) : list str := tl (overlay_updates log).

(** Line 98. *)
Definition recognized_line (ev : SpeechRecognitionEventArgs) : event :=
  Print [Lit "Recognized (Icelandic): "; FStr (result_text (event_result ev))].

Module Scenarios.

Definition is_sleep (e : event) : bool :=
  match e with Sleep _ _ => true | _ => false end.

(** A completion as the chat client returns it for a successful request. *)
Definition completion_with (content : str) : completion := {|
  contains_error := Returns false;
  choices_0_message_content := Returns (VStr content);
  completion_text := Fails AttributeError
|}.

(** All services up; the translator answers [translation]; Ctrl+C comes
    during the third second of sleep. *)
Definition mock_world (translation : str) : services := {|
  client_call := fun _ _ => Returns tt;
  obs_call := fun _ _ => Returns {| response_repr := lit "ok" |};
  chat_completions_create := fun _ _ => Returns (completion_with translation);
  sleep_interrupted := fun t _ => (2 <=? List.length (filter is_sleep t))%nat
|}.

Definition refused : exception := ClientError (lit "connection refused").

(** Nothing is reachable. *)
Definition dead_world : services := {|
  client_call := fun _ _ => Fails refused;
  obs_call := fun _ _ => Fails refused;
  chat_completions_create := fun _ _ => Fails refused;
  sleep_interrupted := fun _ _ => false
|}.

Definition good_day : str := lit "Good day, this is a test".

(** "Góðan dag, þetta er próf" *)
Definition godan_dag : str :=
  lit "G" ++ [243; 240]%N ++ lit "an dag, " ++ [254]%N ++ lit "etta er pr" ++ [243]%N ++ lit "f".

Definition recognized (text : str) : SpeechRecognitionEventArgs := {|
  event_result := {|
    result_reason := RecognizedSpeech;
    result_text := text;
    cancellation_details := {| cancel_reason := EndOfStream; error_details := [] |}
  |}
|}.

Definition canceled (why : CancellationReason) (details : str) : SpeechRecognitionEventArgs := {|
  event_result := {|
    result_reason := Canceled;
    result_text := [];
    cancellation_details := {| cancel_reason := why; error_details := details |}
  |}
|}.


End Scenarios.

Import Scenarios.

(** Worlds in which chosen calls fail. *)
Module Faults.

Definition client_op_eqb (a b : client_op) : bool :=
  match a, b with
  | ObsConnect, ObsConnect
  | ObsDisconnect, ObsDisconnect
  | RecognizedConnect, RecognizedConnect
  | StartContinuousRecognition, StartContinuousRecognition
  | StopContinuousRecognition, StopContinuousRecognition => true
  | _, _ => false
  end.

(** The client call [bad] raises, every other one returns; the overlay
    answers requests only when [overlay_up]; Ctrl+C comes during the third
    second of sleep. *)
Definition faulty_world (bad : option client_op) (overlay_up : bool) : services := {|
  client_call := fun _ op =>
    match bad with
    | Some b => if client_op_eqb op b then Fails refused else Returns tt
    | None => Returns tt
    end;
  obs_call := fun _ _ =>
    if overlay_up then Returns {| response_repr := lit "ok" |} else Fails refused;
  chat_completions_create := fun _ _ => Fails refused;
  sleep_interrupted := fun t _ => (2 <=? List.length (filter is_sleep t))%nat
|}.

End Faults.

Import Faults.

Unset Implicit Arguments.

(* ================================================================= *)
(** ** Strings *)

Section StrFacts.

Lemma flush_nonempty (c : char) (word : str) (words : list str) :
  flush (c :: word) words <> [].
Proof. simpl. discriminate. Qed.

Lemma split_from_nonempty (s : str) :
  forall c word, split_from (c :: word) s <> [].
Proof.
  induction s as [|d s IH]; intros c word; simpl.
  - discriminate.
  - destruct (isspace d); [discriminate | apply IH].
Qed.

(** [split()] finds no word exactly in texts made of whitespace. *)
Lemma split_nil_iff (s : str) :
  split s = [] <-> forallb isspace s = true.
Proof.
  unfold split. induction s as [|c s IH]; simpl.
  - tauto.
  - destruct (isspace c) eqn:Hc; simpl.
    + exact IH.
    + split; [intros H | discriminate].
      exfalso. exact (split_from_nonempty s _ _ H).
Qed.

(** A text has a word as soon as it has a character that is not whitespace. *)
Lemma split_has_word (s : str) :
  split s <> [] <-> exists c, In c s /\ isspace c = false.
Proof.
  rewrite split_nil_iff. split.
  - intros H. induction s as [|c s IH]; simpl in *.
    + congruence.
    + destruct (isspace c) eqn:Hc.
      * destruct IH as (d & Hd & Hs); [exact H|]. exists d. tauto.
      * exists c. tauto.
  - intros (c & Hin & Hc) Hall.
    rewrite forallb_forall in Hall. specialize (Hall c Hin). congruence.
Qed.

Lemma join_one (sep p : str) : join sep [p] = p.
Proof. reflexivity. Qed.

Example split_collapses_whitespace :
  split (lit "  Good   day, " ++ [10; 160]%N ++ lit "this ")
  = [lit "Good"; lit "day,"; lit "this"].
Proof. reflexivity. Qed.

Example join_with_spaces :
  join space [lit "Good"; lit "day,"; lit "this"] = lit "Good day, this".
Proof. reflexivity. Qed.

Example strip_both_ends :
  strip ([9]%N ++ lit " Good day " ++ [10]%N) = lit "Good day".
Proof. reflexivity. Qed.

Example godan_dag_length : len godan_dag = 24%Z.
Proof. reflexivity. Qed.

Example greedy_packing_of_a_long_text :
  spec_greedy_chunks 10 (split (lit "one two three four five six")) []
  = [lit "one two"; lit "three four"; lit "five six"].
Proof. reflexivity. Qed.

End StrFacts.

(* ================================================================= *)
(** ** Running the functions *)

Section Runs.

Variable cfg : config.
Variable world : services.

Lemma update_obs_subtitles_run (text : str) (t : trace) :
  update_obs_subtitles cfg world text t = (Normal tt, t ++ update_log cfg world text t).
Proof.
  unfold update_obs_subtitles, update_log, update_request,
    try_except_Exception, bind, call_obs, lift, print.
  destruct (obs_call world t (SetInputSettings (OBS_SOURCE cfg) text));
    simpl; rewrite <- ?app_assoc; reflexivity.
Qed.

Lemma overlay_updates_app (t u : trace) :
  overlay_updates (t ++ u) = overlay_updates t ++ overlay_updates u.
Proof.
  induction t as [|e t IH]; simpl; [reflexivity|].
  destruct e as [| | [src txt|name txt] r | |]; simpl; rewrite IH; reflexivity.
Qed.

Lemma overlay_updates_update_log (text : str) (t : trace) :
  overlay_updates (update_log cfg world text t) = [text].
Proof.
  unfold update_log, update_request; simpl.
  destruct (obs_call world t (SetInputSettings (OBS_SOURCE cfg) text)); reflexivity.
Qed.

(** Line 80 raises whatever the chunk, the word and the limit. *)
Lemma boundary_test_fails (cur : list str) (word : str) :
  boundary_test cfg cur word = Fails TypeError.
Proof. reflexivity. Qed.

Lemma for_word_in_stops (word : str) (rest : list str) (fr : frame) (t : trace) :
  for_word_in cfg (word :: rest) fr t = (Raised (Exc TypeError), fr, t).
Proof. reflexivity. Qed.

Lemma display_subtitles_frame_words (text : str) (t : trace) :
  split text <> [] ->
  display_subtitles_frame cfg world text t
  = (Raised (Exc TypeError), empty_frame, t ++ update_log cfg world text t).
Proof.
  intros Hw. unfold display_subtitles_frame.
  rewrite update_obs_subtitles_run.
  destruct (split text) as [|word rest]; [congruence|].
  reflexivity.
Qed.

Lemma display_subtitles_frame_blank (text : str) (t : trace) :
  split text = [] ->
  display_subtitles_frame cfg world text t
  = (Normal tt,
     {| current_chunk := []; subtitle_chunks := [[]] |},
     let t1 := t ++ update_log cfg world text t in
     let t3 := t1 ++ [Print [Lit "Subtitle chunks: "; FList [[]]]] in
     t3 ++ update_log cfg world [] t3).
Proof.
  intros Hw. unfold display_subtitles_frame.
  rewrite update_obs_subtitles_run, Hw. simpl.
  unfold bind. rewrite update_obs_subtitles_run. reflexivity.
Qed.

End Runs.

(* ================================================================= *)
(** ** The chunker (lines 71-93) *)

Section Chunker.

Variable cfg : config.
Variable world : services.

(** C4.  For every text with at least one whitespace-separated word,
    [display_subtitles] reaches the comparison of line 80 on the first word;
    the comparison adds a [str] and an [int] and raises [TypeError]; the
    function is left with both lists still empty, and the only overlay update
    of the call is the full-text one of line 77: no chunk is appended to
    [subtitle_chunks], no chunk update is sent. *)
Theorem display_subtitles_raises_on_first_word (text : str) (t : trace) :
  split text <> [] ->
  exists word rest,
    split text = word :: rest /\
    py_add (VStr (join space [])) (VInt (len word)) = Fails TypeError /\
    boundary_test cfg [] word = Fails TypeError /\
    display_subtitles_frame cfg world text t
    = (Raised (Exc TypeError), empty_frame, t ++ update_log cfg world text t) /\
    display_subtitles cfg world text t
    = (Raised (Exc TypeError), t ++ update_log cfg world text t) /\
    subtitle_chunks (snd (fst (display_subtitles_frame cfg world text t))) = [] /\
    overlay_updates (update_log cfg world text t) = [text].
Proof.
  intros Hw.
  pose proof (display_subtitles_frame_words cfg world text t Hw) as Hrun.
  destruct (split text) as [|word rest] eqn:Hs; [congruence|].
  exists word, rest. repeat split.
  - exact Hrun.
  - unfold display_subtitles. rewrite Hrun. reflexivity.
  - rewrite Hrun. reflexivity.
  - apply overlay_updates_update_log.
Qed.

(** C1, as the code has it.  For every text without a word (empty, or
    whitespace only) [display_subtitles] returns; its chunks are the single
    empty string, sent once after the full text; joined with single spaces
    they give the words of the text joined with single spaces, which is the
    text itself only when the text is empty. *)
Theorem blank_text_chunks (text : str) (t : trace) :
  split text = [] ->
  exists fr t',
    display_subtitles_frame cfg world text t = (Normal tt, fr, t') /\
    subtitle_chunks fr = [[]] /\
    overlay_updates t' = overlay_updates t ++ text :: subtitle_chunks fr /\
    join space (subtitle_chunks fr) = join space (split text) /\
    (join space (subtitle_chunks fr) = text <-> text = []).
Proof.
  intros Hs.
  rewrite (display_subtitles_frame_blank cfg world text t Hs).
  eexists _, _. split; [reflexivity|]. simpl. repeat split.
  - rewrite !overlay_updates_app, !overlay_updates_update_log.
    simpl. rewrite <- !app_assoc. reflexivity.
  - rewrite Hs. reflexivity.
  - intros H. symmetry. exact H.
  - intros H. symmetry. exact H.
Qed.

Lemma spec_greedy_chunks_nonempty (L : Z) (words : list str) :
  forall chunk, spec_greedy_chunks L words chunk <> [].
Proof.
  induction words as [|word rest IH]; intros chunk; simpl.
  - discriminate.
  - destruct (len (join space (chunk ++ [word])) <=? L)%Z;
      [apply IH | discriminate].
Qed.

(** On no text with a word does the loop arrive at what greedy packing
    gives: it holds no chunk when it is left, greedy packing at least one. *)
Lemma chunker_never_packs (text : str) (t : trace) :
  split text <> [] ->
  subtitle_chunks (snd (fst (display_subtitles_frame cfg world text t)))
  <> spec_greedy_chunks (MAX_SUBTITLE_LENGTH cfg) (split text) [].
Proof.
  intros Hw. rewrite (display_subtitles_frame_words cfg world text t Hw). simpl.
  intros H. symmetry in H. exact (spec_greedy_chunks_nonempty _ _ _ H).
Qed.

End Chunker.

Lemma display_subtitles_raises_on_first_word_witness :
  split good_day <> [] /\
  display_subtitles source_config (mock_world good_day) good_day []
  = (Raised (Exc TypeError),
     [] ++ update_log source_config (mock_world good_day) good_day []).
Proof.
  assert (Hw : split good_day <> []) by (vm_compute; discriminate).
  split; [exact Hw|].
  destruct (display_subtitles_raises_on_first_word source_config
              (mock_world good_day) good_day [] Hw)
    as (word & rest & _ & _ & _ & _ & Hrun & _).
  exact Hrun.
Defined.

Lemma blank_text_chunks_witness :
  split (lit " ") = [] /\
  exists fr t',
    display_subtitles_frame source_config (mock_world good_day) (lit " ") []
    = (Normal tt, fr, t') /\
    subtitle_chunks fr = [[]].
Proof.
  assert (Hs : split (lit " ") = []) by reflexivity.
  split; [exact Hs|].
  destruct (blank_text_chunks source_config (mock_world good_day) (lit " ") [] Hs)
    as (fr & t' & Hrun & Hchunks & _).
  exists fr, t'. split; assumption.
Defined.

(** C1 as stated fails.  On the one-space text the run ends normally with
    the single chunk [""], which is not the text; on "Good day, this is a
    test" the run ends in [TypeError] with no chunk at all. *)
Lemma chunks_do_not_reproduce_text :
  ~ chunks_reproduce source_config (mock_world good_day) (lit " ") [] /\
  ~ chunks_reproduce source_config (mock_world good_day) good_day [].
Proof.
  split; vm_compute; intros [H1 H2]; discriminate.
Qed.

(** C3 at "Good day, this is a test".  The code leaves the loop at the first
    word with [TypeError]: nothing is appended, line 88 is not reached and
    no chunk goes to the overlay.  Greedy packing up to 60 characters gives
    the one chunk "Good day, this is a test". *)
Theorem chunker_departs_from_greedy_packing :
  display_subtitles_frame source_config (mock_world good_day) good_day []
  = (Raised (Exc TypeError), empty_frame,
     update_log source_config (mock_world good_day) good_day []) /\
  overlay_updates (snd (display_subtitles source_config (mock_world good_day) good_day []))
  = [good_day] /\
  spec_greedy_chunks (MAX_SUBTITLE_LENGTH source_config) (split good_day) []
  = [good_day].
Proof.
  repeat split; vm_compute; reflexivity.
Qed.


(* ================================================================= *)
(** ** The overlay updater (lines 38-49) and the translator (lines 52-69) *)

Section Boundaries.

Variable cfg : config.
Variable world : services.

(** C6.  For every text and whatever the overlay answers,
    [update_obs_subtitles] returns.  When the call returns a response the
    two success lines are printed; when it raises, the exception is caught
    and the line "Error updating OBS: ..." is printed with it. *)
Theorem update_obs_subtitles_never_raises (text : str) (t : trace) :
  let req := SetInputSettings (OBS_SOURCE cfg) text in
  match obs_call world t req with
  | Returns resp =>
      update_obs_subtitles cfg world text t
      = (Normal tt,
         t ++ [ ObsCall req (Returns resp);
                Print [Lit "OBS Response: "; FResp resp];
                Print [Lit "Successfully updated OBS subtitles to: "; FStr text] ])
  | Fails e =>
      update_obs_subtitles cfg world text t
      = (Normal tt,
         t ++ [ ObsCall req (Fails e);
                Print [Lit "Error updating OBS: "; FExc e] ])
  end.
Proof.
  simpl. rewrite update_obs_subtitles_run.
  unfold update_log, update_request.
  destruct (obs_call world t (SetInputSettings (OBS_SOURCE cfg) text)); reflexivity.
Qed.

Lemma translate_text_run (text : str) (t : trace) :
  let req := translation_request text in
  let r := chat_completions_create world t req in
  exists log,
    translate_text world text t
    = (Normal (translation_of r), t ++ ChatCreate req r :: log) /\
    forallb is_print log = true.
Proof.
  simpl.
  unfold translate_text, translation_of, try_except_Exception, bind, call_chat,
    lift, print, ret.
  destruct (chat_completions_create world t (translation_request text))
    as [c|e]; simpl.
  - destruct (contains_error c) as [[|]|e]; simpl.
    + destruct (completion_text c) as [shown|e]; simpl;
        rewrite <- ?app_assoc; simpl; eexists; split; reflexivity.
    + destruct (choices_0_message_content c) as [[| n | content | items]|e];
        simpl; rewrite <- ?app_assoc; simpl; eexists; split; reflexivity.
    + rewrite <- ?app_assoc; simpl; eexists; split; reflexivity.
  - rewrite <- ?app_assoc; simpl; eexists; split; reflexivity.
Qed.

(** C5.  For every text and whatever the chat client answers,
    [translate_text] returns a string.  It is the stripped message content
    when the call returned, the response holds no "error" and the content is
    a string; in every other case (the client raised, looking into the
    response raised, the response holds "error", the content is not a
    string) it is "[Translation Error]". *)
Theorem translate_text_never_raises (text : str) (t : trace) :
  let req := translation_request text in
  match chat_completions_create world t req with
  | Fails e =>
      translate_text world text t
      = (Normal translation_error,
         t ++ [ ChatCreate req (Fails e);
                Print [Lit "Error during translation: "; FExc e] ])
  | Returns c =>
      match contains_error c, choices_0_message_content c with
      | Returns false, Returns (VStr content) =>
          translate_text world text t
          = (Normal (strip content), t ++ [ ChatCreate req (Returns c) ])
      | _, _ =>
          exists line,
            translate_text world text t
            = (Normal translation_error,
               t ++ [ ChatCreate req (Returns c); Print line ])
      end
  end.
Proof.
  simpl.
  unfold translate_text, try_except_Exception, bind, call_chat, lift, print, ret.
  destruct (chat_completions_create world t (translation_request text))
    as [c|e]; simpl.
  - destruct (contains_error c) as [[|]|e]; simpl.
    + destruct (completion_text c) as [shown|e];
        destruct (choices_0_message_content c) as [[| n | content | items]|e'];
        simpl; rewrite <- ?app_assoc; simpl; eexists; reflexivity.
    + destruct (choices_0_message_content c) as [[| n | content | items]|e];
        simpl; rewrite <- ?app_assoc; simpl; try reflexivity;
        eexists; reflexivity.
    + destruct (choices_0_message_content c) as [[| n | content | items]|e'];
        simpl; rewrite <- ?app_assoc; simpl; eexists; reflexivity.
  - rewrite <- ?app_assoc. reflexivity.
Qed.

End Boundaries.

(* ================================================================= *)
(** ** The recognition handler (lines 95-108) *)

Section Handler.

Variable cfg : config.
Variable world : services.

Lemma overlay_updates_prints (log : trace) :
  forallb is_print log = true -> overlay_updates log = [].
Proof.
  induction log as [|e log IH]; simpl; [reflexivity|].
  destruct e; simpl; try discriminate. exact IH.
Qed.

Lemma display_subtitles_starts_with_update (text : str) (t : trace) :
  exists rest,
    snd (display_subtitles cfg world text t)
    = t ++ ObsCall (update_request cfg text) (obs_call world t (update_request cfg text))
           :: rest.
Proof.
  unfold display_subtitles.
  destruct (split text) as [|word more] eqn:Hs.
  - rewrite (display_subtitles_frame_blank cfg world text t Hs). simpl.
    unfold update_log at 1. simpl. rewrite <- !app_assoc. simpl.
    eexists. reflexivity.
  - rewrite (display_subtitles_frame_words cfg world text t)
      by (rewrite Hs; discriminate).
    simpl. unfold update_log. simpl. eexists. reflexivity.
Qed.

Lemma on_recognized_speech_run (ev : SpeechRecognitionEventArgs) (t : trace) :
  result_reason (event_result ev) = RecognizedSpeech ->
  exists translated t1,
    translate_text world (result_text (event_result ev)) (t ++ [recognized_line ev])
    = (Normal translated, t1) /\
    overlay_updates t1 = overlay_updates t /\
    on_recognized cfg world ev t
    = display_subtitles cfg world translated
        (t1 ++ [Print [Lit "Translated (English): "; FStr translated]]).
Proof.
  intros Hr. unfold on_recognized, recognized_line. rewrite Hr.
  destruct (translate_text_run world (result_text (event_result ev))
              (t ++ [Print [Lit "Recognized (Icelandic): ";
                            FStr (result_text (event_result ev))]]))
    as (log & Hrun & Hlog).
  eexists _, _. split; [exact Hrun|]. split.
  - rewrite !overlay_updates_app. simpl.
    rewrite (overlay_updates_prints _ Hlog), !app_nil_r. reflexivity.
  - unfold bind at 1. unfold print at 1. unfold bind at 1.
    rewrite Hrun. reflexivity.
Qed.

(** C8.  For every text and every configuration, the first thing
    [display_subtitles] does to the world is the overlay update carrying the
    whole text, whatever its length and before any step of the chunking
    loop; so for every event with reason [RecognizedSpeech] the first
    overlay update of the handler carries the whole translation. *)
Theorem full_text_is_first_update :
  (forall text t,
     exists rest,
       snd (display_subtitles cfg world text t)
       = t ++ ObsCall (SetInputSettings (OBS_SOURCE cfg) text)
                (obs_call world t (SetInputSettings (OBS_SOURCE cfg) text))
              :: rest /\
       overlay_updates (snd (display_subtitles cfg world text t))
       = overlay_updates t ++ text :: overlay_updates rest) /\
  (forall ev t,
     result_reason (event_result ev) = RecognizedSpeech ->
     exists translated sent,
       fst (translate_text world (result_text (event_result ev))
              (t ++ [recognized_line ev]))
       = Normal translated /\
       overlay_updates (snd (on_recognized cfg world ev t))
       = overlay_updates t ++ translated :: sent).
Proof.
  split.
  - intros text t.
    destruct (display_subtitles_starts_with_update text t) as (rest & Hrun).
    exists rest. split; [exact Hrun|].
    rewrite Hrun, overlay_updates_app. reflexivity.
  - intros ev t Hr.
    destruct (on_recognized_speech_run ev t Hr)
      as (translated & t1 & Htr & Hquiet & Hrun).
    destruct (display_subtitles_starts_with_update translated
                (t1 ++ [Print [Lit "Translated (English): "; FStr translated]]))
      as (rest & Hshow).
    exists translated, (overlay_updates rest). split.
    + rewrite Htr. reflexivity.
    + rewrite Hrun, Hshow, !overlay_updates_app, Hquiet. simpl.
      rewrite app_nil_r. reflexivity.
Qed.

(** C9.  For every event whose reason is not [RecognizedSpeech] the handler
    returns having only printed: no chat request, no overlay call.  For
    [Canceled] with reason [Error] the line "Error details: ..." with the
    error detail is among the printed lines. *)
Theorem unrecognized_events_only_log (ev : SpeechRecognitionEventArgs) (t : trace) :
  result_reason (event_result ev) <> RecognizedSpeech ->
  exists log,
    on_recognized cfg world ev t = (Normal tt, t ++ log) /\
    forallb is_print log = true /\
    forallb (fun e => negb (is_chat e) && negb (is_obs e)) log = true /\
    (result_reason (event_result ev) = Canceled ->
     cancel_reason (cancellation_details (event_result ev)) = Error ->
     In (Print [Lit "Error details: ";
                FStr (error_details (cancellation_details (event_result ev)))])
        log).
Proof.
  intros Hr. unfold on_recognized.
  destruct (result_reason (event_result ev)) eqn:Hreason;
    try congruence;
    try (exists []; rewrite app_nil_r; repeat split; try reflexivity; discriminate).
  - eexists. unfold print. repeat split; try reflexivity. discriminate.
  - destruct (cancel_reason (cancellation_details (event_result ev))) eqn:Hwhy;
      unfold bind, print, ret; simpl; rewrite <- ?app_assoc; simpl;
      eexists; repeat split; try reflexivity; try discriminate.
    intros _ _. simpl. right. left. reflexivity.
Qed.

End Handler.

Lemma full_text_is_first_update_witness :
  result_reason (event_result (recognized godan_dag)) = RecognizedSpeech /\
  exists translated sent,
    fst (translate_text (mock_world good_day) godan_dag
           ([] ++ [recognized_line (recognized godan_dag)]))
    = Normal translated /\
    overlay_updates
      (snd (on_recognized source_config (mock_world good_day) (recognized godan_dag) []))
    = overlay_updates [] ++ translated :: sent.
Proof.
  split; [reflexivity|].
  exact (proj2 (full_text_is_first_update source_config (mock_world good_day))
           (recognized godan_dag) [] eq_refl).
Defined.

Lemma unrecognized_events_only_log_witness :
  result_reason (event_result (canceled Error (lit "quota exceeded")))
    <> RecognizedSpeech /\
  exists log,
    on_recognized source_config dead_world (canceled Error (lit "quota exceeded")) []
    = (Normal tt, log) /\
    In (Print [Lit "Error details: "; FStr (lit "quota exceeded")]) log.
Proof.
  assert (Hr : result_reason (event_result (canceled Error (lit "quota exceeded")))
               <> RecognizedSpeech) by discriminate.
  split; [exact Hr|].
  destruct (unrecognized_events_only_log source_config dead_world
              (canceled Error (lit "quota exceeded")) [] Hr)
    as (log & Hrun & _ & _ & Hdetail).
  exists log. split; [exact Hrun|].
  exact (Hdetail eq_refl eq_refl).
Defined.

(** C7 at the scenario itself.  The utterance is recognized, the translator
    returns "Good day, this is a test" (24 characters, within the limit of
    60), and the handler sends it to the overlay as the full-text update of
    line 77; then line 80 raises [TypeError] on the first word and the
    handler ends there: the line "Subtitle chunks: ..." is never printed and
    no chunk update follows, where greedy packing gives the one chunk
    "Good day, this is a test". *)
Theorem scenario_1_sends_no_chunk :
  on_recognized source_config (mock_world good_day) (recognized godan_dag) []
  = (Raised (Exc TypeError),
     [ Print [Lit "Recognized (Icelandic): "; FStr godan_dag];
       ChatCreate (translation_request godan_dag) (Returns (completion_with good_day));
       Print [Lit "Translated (English): "; FStr good_day];
       ObsCall (SetInputSettings (lit "Subtitles") good_day)
         (Returns {| response_repr := lit "ok" |});
       Print [Lit "OBS Response: "; FResp {| response_repr := lit "ok" |}];
       Print [Lit "Successfully updated OBS subtitles to: "; FStr good_day] ]) /\
  chunk_updates
    (snd (on_recognized source_config (mock_world good_day) (recognized godan_dag) []))
  = [] /\
  (forall t,
     subtitle_chunks
       (snd (fst (display_subtitles_frame source_config (mock_world good_day) good_day t)))
     = []) /\
  len good_day = 24%Z /\
  spec_greedy_chunks (MAX_SUBTITLE_LENGTH source_config) (split good_day) []
  = [good_day].
Proof.
  split; [vm_compute; reflexivity|].
  split; [vm_compute; reflexivity|].
  split.
  - intros t.
    rewrite display_subtitles_frame_words by (vm_compute; discriminate).
    reflexivity.
  - split; vm_compute; reflexivity.
Qed.

(* ================================================================= *)
(** ** Startup and shutdown (lines 22-34 and 111-127) *)

Section Process.

Variable cfg : config.
Variable world : services.

Lemma answers_app (log1 log2 : trace) :
  forall t,
    answers world t (log1 ++ log2) ->
    answers world t log1 /\ answers world (t ++ log1) log2.
Proof.
  induction log1 as [|e log1 IH]; intros t H; simpl in *.
  - rewrite app_nil_r. tauto.
  - destruct H as [He H]. destruct (IH _ H) as [H1 H2].
    rewrite <- app_assoc in H2. simpl in H2. tauto.
Qed.

(** Ctrl+C during the sleep number [n + 1] ends the loop, given fuel for it. *)
Lemma keep_running_interrupted (n : nat) :
  forall fuel t,
    n < fuel ->
    answers world t (idle_log n) ->
    keep_running world fuel t = (Raised KeyboardInterrupt, t ++ idle_log n).
Proof.
  unfold idle_log.
  induction n as [|n IH]; intros fuel t Hfuel H;
    (destruct fuel as [|fuel]; [lia|]); simpl in *; unfold bind, time_sleep.
  - destruct H as [-> _]. reflexivity.
  - destruct H as [-> H].
    rewrite (IH fuel (t ++ [Sleep 1 false])) by (assumption || lia).
    rewrite <- app_assoc. reflexivity.
Qed.

Lemma connect_obs_connected (resp : response) (t : trace) :
  answers world t (connected_log cfg resp) ->
  connect_obs cfg world t = (Normal tt, t ++ connected_log cfg resp).
Proof.
  simpl. intros (Hc & _ & Ht & _).
  unfold connect_obs, try_except_Exception, bind, call_client, call_obs, lift, print.
  rewrite Hc. simpl. rewrite <- !app_assoc in *. simpl in *.
  unfold test_request in Ht. rewrite Ht. simpl.
  rewrite <- !app_assoc. reflexivity.
Qed.

Lemma connect_obs_refused (e : exception) (t : trace) :
  client_call world t ObsConnect = Fails e ->
  connect_obs cfg world t
  = (Raised (SystemExit 1),
     t ++ [ ClientCall ObsConnect (Fails e);
            Print [Lit "Failed to connect to OBS WebSocket: "; FExc e] ]).
Proof.
  intros Hc.
  unfold connect_obs, try_except_Exception, bind, call_client, lift, print, raise.
  rewrite Hc. simpl. rewrite <- !app_assoc. reflexivity.
Qed.

Lemma main_clean_shutdown (n fuel : nat) (t : trace) :
  n < fuel ->
  answers world t (listening_log ++ idle_log n ++ shutdown_log) ->
  main world fuel t
  = (Normal tt, t ++ listening_log ++ idle_log n ++ shutdown_log).
Proof.
  intros Hfuel H.
  apply answers_app in H. destruct H as [Hlisten H].
  apply answers_app in H. destruct H as [Hidle Hdown].
  simpl in Hlisten. destruct Hlisten as (Hreg & Hstart & _).
  simpl in Hdown. destruct Hdown as (_ & Hstop & Hdisc & _).
  unfold main, bind at 1, call_client at 1. rewrite Hreg. simpl.
  unfold bind at 1, call_client at 1. rewrite Hstart. simpl.
  unfold bind at 1, print at 1. rewrite <- !app_assoc. simpl.
  unfold try_except_KeyboardInterrupt.
  change (t ++ [ClientCall RecognizedConnect (Returns tt);
                ClientCall StartContinuousRecognition (Returns tt);
                Print [Lit "Listening for speech. Press Ctrl+C to stop."]])
    with (t ++ listening_log).
  rewrite (keep_running_interrupted n fuel _ Hfuel Hidle).
  unfold bind, print, call_client.
  rewrite Hstop. simpl. rewrite Hdisc. simpl.
  rewrite <- !app_assoc. reflexivity.
Qed.

(** C10.  When [obs_client.connect()] raises at startup, the script prints
    the failure and ends at once with exit status 1: nothing else is called.
    When the overlay is connected, recognition is started and Ctrl+C arrives
    after any number [n] of quiet seconds, the script stops recognition,
    disconnects the overlay, both calls returning, and ends with exit status
    0; fuel for [n + 1] rounds of the loop is enough. *)
Theorem exit_statuses :
  (forall fuel t e,
     client_call world t ObsConnect = Fails e ->
     script cfg world fuel t
     = (Raised (SystemExit 1),
        t ++ [ ClientCall ObsConnect (Fails e);
               Print [Lit "Failed to connect to OBS WebSocket: "; FExc e] ]) /\
     exit_status (fst (script cfg world fuel t)) = Some 1%Z) /\
  (forall fuel n t resp,
     n < fuel ->
     answers world t
       (connected_log cfg resp ++ listening_log ++ idle_log n ++ shutdown_log) ->
     script cfg world fuel t
     = (Normal tt,
        t ++ connected_log cfg resp ++ listening_log ++ idle_log n ++ shutdown_log) /\
     exit_status (fst (script cfg world fuel t)) = Some 0%Z).
Proof.
  split.
  - intros fuel t e Hc.
    assert (Hrun : script cfg world fuel t
                   = (Raised (SystemExit 1),
                      t ++ [ ClientCall ObsConnect (Fails e);
                             Print [Lit "Failed to connect to OBS WebSocket: "; FExc e] ])).
    { unfold script, bind. rewrite (connect_obs_refused e t Hc). reflexivity. }
    rewrite Hrun. split; reflexivity.
  - intros fuel n t resp Hfuel H.
    apply answers_app in H. destruct H as [Hconn Hrest].
    assert (Hrun : script cfg world fuel t
                   = (Normal tt,
                      t ++ connected_log cfg resp ++ listening_log
                        ++ idle_log n ++ shutdown_log)).
    { unfold script, bind. rewrite (connect_obs_connected resp t Hconn).
      rewrite (main_clean_shutdown n fuel _ Hfuel Hrest), <- app_assoc. reflexivity. }
    rewrite Hrun. split; reflexivity.
Qed.

End Process.

Lemma exit_statuses_witness :
  exit_status (fst (script source_config dead_world 5 [])) = Some 1%Z /\
  exit_status (fst (script source_config (mock_world good_day) 5 [])) = Some 0%Z.
Proof.
  destruct (exit_statuses source_config dead_world) as [Hfail _].
  destruct (exit_statuses source_config (mock_world good_day)) as [_ Hclean].
  split.
  - exact (proj2 (Hfail 5 [] refused eq_refl)).
  - refine (proj2 (Hclean 5 2 [] {| response_repr := lit "ok" |} _ _)).
    + lia.
    + simpl. repeat split; reflexivity.
Defined.

(* ================================================================= *)
(** ** More on startup and shutdown *)

Section ProcessEdges.

Variable cfg : config.
Variable world : services.

(** The connect block ends in one of two ways: connected, or [exit(1)]
    after the line "Failed to connect ...". *)
Lemma connect_obs_outcomes (t : trace) :
  (exists resp, connect_obs cfg world t = (Normal tt, t ++ connected_log cfg resp)) \/
  (exists e log,
     connect_obs cfg world t
     = (Raised (SystemExit 1),
        t ++ log ++ [Print [Lit "Failed to connect to OBS WebSocket: "; FExc e]])).
Proof.
  unfold connect_obs, try_except_Exception, bind, call_client, call_obs, lift,
    print, raise, connected_log, test_request.
  destruct (client_call world t ObsConnect) as [[]|e] eqn:Hc; simpl.
  - destruct (obs_call world _ _) as [resp|e] eqn:Ht; simpl.
    + left. exists resp. rewrite <- !app_assoc. reflexivity.
    + right.
      exists e, [ ClientCall ObsConnect (Returns tt);
                  Print [Lit "Connected to OBS WebSocket!"];
                  ObsCall (SetTextGDIPlusProperties (OBS_SOURCE cfg)
                             (lit "Testing connection to OBS...")) (Fails e) ].
      rewrite <- !app_assoc. reflexivity.
  - right. exists e, [ClientCall ObsConnect (Fails e)].
    rewrite <- !app_assoc. reflexivity.
Qed.

(** X1.  The overlay accepts the connection but the test subtitle of lines
    27-30 fails: the script reports "Failed to connect", ends with exit
    status 1, and neither starts recognition nor disconnects the overlay. *)
Theorem test_subtitle_failure_exits_1 (e : exception) (fuel : nat) (t : trace) :
  answers world t
    [ ClientCall ObsConnect (Returns tt);
      Print [Lit "Connected to OBS WebSocket!"];
      ObsCall (test_request cfg) (Fails e) ] ->
  script cfg world fuel t
  = (Raised (SystemExit 1),
     t ++ [ ClientCall ObsConnect (Returns tt);
            Print [Lit "Connected to OBS WebSocket!"];
            ObsCall (test_request cfg) (Fails e);
            Print [Lit "Failed to connect to OBS WebSocket: "; FExc e] ]) /\
  exit_status (fst (script cfg world fuel t)) = Some 1%Z.
Proof.
  simpl. intros (Hc & _ & Ht & _).
  assert (Hrun : script cfg world fuel t
                 = (Raised (SystemExit 1),
                    t ++ [ ClientCall ObsConnect (Returns tt);
                           Print [Lit "Connected to OBS WebSocket!"];
                           ObsCall (test_request cfg) (Fails e);
                           Print [Lit "Failed to connect to OBS WebSocket: "; FExc e] ])).
  { unfold script, connect_obs, try_except_Exception, bind, call_client, call_obs,
      lift, print, raise.
    rewrite Hc. simpl. unfold test_request in Ht.
    rewrite <- !app_assoc in *. simpl in *. rewrite Ht. simpl.
    rewrite <- !app_assoc. reflexivity. }
  rewrite Hrun. split; reflexivity.
Qed.

(** X2.  The overlay is connected but
    [recognizer.start_continuous_recognition()] raises: the exception leaves
    [main] (its [try] starts later), the script ends with exit status 1 and
    the overlay connection is never closed. *)
Theorem start_failure_leaves_overlay_connected
    (e : exception) (resp : response) (fuel : nat) (t : trace) :
  answers world t
    (connected_log cfg resp
       ++ [ ClientCall RecognizedConnect (Returns tt);
            ClientCall StartContinuousRecognition (Fails e) ]) ->
  script cfg world fuel t
  = (Raised (Exc e),
     t ++ connected_log cfg resp
       ++ [ ClientCall RecognizedConnect (Returns tt);
            ClientCall StartContinuousRecognition (Fails e) ]) /\
  exit_status (fst (script cfg world fuel t)) = Some 1%Z.
Proof.
  intros H. apply answers_app in H. destruct H as [Hconn Hrest].
  simpl in Hrest. destruct Hrest as (Hreg & Hstart & _).
  assert (Hrun : script cfg world fuel t
                 = (Raised (Exc e),
                    t ++ connected_log cfg resp
                      ++ [ ClientCall RecognizedConnect (Returns tt);
                           ClientCall StartContinuousRecognition (Fails e) ])).
  { unfold script, bind at 1. rewrite (connect_obs_connected cfg world resp t Hconn).
    unfold main, bind at 1, call_client at 1. rewrite Hreg. simpl.
    unfold bind at 1, call_client at 1. rewrite Hstart. simpl.
    rewrite <- !app_assoc. reflexivity. }
  rewrite Hrun. split; reflexivity.
Qed.

Lemma main_stop_failure (e : exception) (n fuel : nat) (t : trace) :
  n < fuel ->
  answers world t
    (listening_log ++ idle_log n
       ++ [ Print [Lit "Stopping..."];
            ClientCall StopContinuousRecognition (Fails e) ]) ->
  main world fuel t
  = (Raised (Exc e),
     t ++ listening_log ++ idle_log n
       ++ [ Print [Lit "Stopping..."];
            ClientCall StopContinuousRecognition (Fails e) ]).
Proof.
  intros Hfuel H.
  apply answers_app in H. destruct H as [Hlisten H].
  apply answers_app in H. destruct H as [Hidle Hdown].
  simpl in Hlisten. destruct Hlisten as (Hreg & Hstart & _).
  simpl in Hdown. destruct Hdown as (_ & Hstop & _).
  unfold main, bind at 1, call_client at 1. rewrite Hreg. simpl.
  unfold bind at 1, call_client at 1. rewrite Hstart. simpl.
  unfold bind at 1, print at 1. rewrite <- !app_assoc. simpl.
  unfold try_except_KeyboardInterrupt.
  change (t ++ [ClientCall RecognizedConnect (Returns tt);
                ClientCall StartContinuousRecognition (Returns tt);
                Print [Lit "Listening for speech. Press Ctrl+C to stop."]])
    with (t ++ listening_log).
  rewrite (keep_running_interrupted world n fuel _ Hfuel Hidle).
  unfold bind, print, call_client. rewrite Hstop. simpl.
  rewrite <- !app_assoc. reflexivity.
Qed.

(** X3.  Ctrl+C arrives but [recognizer.stop_continuous_recognition()]
    raises: the exception leaves the handler of line 121, so
    [obs_client.disconnect()] is never called and the exit status is 1. *)
Theorem stop_failure_skips_disconnect
    (e : exception) (resp : response) (n fuel : nat) (t : trace) :
  n < fuel ->
  answers world t
    (connected_log cfg resp ++ listening_log ++ idle_log n
       ++ [ Print [Lit "Stopping..."];
            ClientCall StopContinuousRecognition (Fails e) ]) ->
  script cfg world fuel t
  = (Raised (Exc e),
     t ++ connected_log cfg resp ++ listening_log ++ idle_log n
       ++ [ Print [Lit "Stopping..."];
            ClientCall StopContinuousRecognition (Fails e) ]) /\
  exit_status (fst (script cfg world fuel t)) = Some 1%Z.
Proof.
  intros Hfuel H.
  apply answers_app in H. destruct H as [Hconn Hrest].
  assert (Hrun : script cfg world fuel t
                 = (Raised (Exc e),
                    t ++ connected_log cfg resp ++ listening_log ++ idle_log n
                      ++ [ Print [Lit "Stopping..."];
                           ClientCall StopContinuousRecognition (Fails e) ])).
  { unfold script, bind. rewrite (connect_obs_connected cfg world resp t Hconn).
    rewrite (main_stop_failure e n fuel _ Hfuel Hrest), <- app_assoc.
    reflexivity. }
  rewrite Hrun. split; reflexivity.
Qed.

(** The loop of lines 119-120 is never left normally: after [fuel] rounds it
    is still running, unless Ctrl+C came during one of the sleeps. *)
Lemma keep_running_outcome (fuel : nat) :
  forall t,
    keep_running world fuel t = (Unfinished, t ++ repeat (Sleep 1 false) fuel) \/
    exists n,
      n < fuel /\
      keep_running world fuel t = (Raised KeyboardInterrupt, t ++ idle_log n).
Proof.
  induction fuel as [|fuel IH]; intros t; simpl.
  - left. rewrite app_nil_r. reflexivity.
  - unfold bind, time_sleep.
    destruct (sleep_interrupted world t 1) eqn:Hi.
    + right. exists 0. split; [lia | reflexivity].
    + destruct (IH (t ++ [Sleep 1 false])) as [Hrun | (n & Hn & Hrun)];
        rewrite Hrun, <- app_assoc.
      * left. reflexivity.
      * right. exists (S n). split; [lia | reflexivity].
Qed.

Lemma main_exit_0 (fuel : nat) (t : trace) :
  exit_status (fst (main world fuel t)) = Some 0%Z ->
  exists n,
    n < fuel /\
    main world fuel t = (Normal tt, t ++ listening_log ++ idle_log n ++ shutdown_log).
Proof.
  destruct (main world fuel t) as [r t'] eqn:Hmain. revert Hmain.
  unfold main, bind at 1, call_client at 1.
  destruct (client_call world t RecognizedConnect) as [[]|e]; simpl;
    [|intros Hm Hx; inversion Hm; subst; discriminate].
  unfold bind at 1, call_client at 1.
  destruct (client_call world _ StartContinuousRecognition) as [[]|e]; simpl;
    [|intros Hm Hx; inversion Hm; subst; discriminate].
  unfold bind at 1, print at 1. rewrite <- !app_assoc. simpl.
  unfold try_except_KeyboardInterrupt.
  change (t ++ [ClientCall RecognizedConnect (Returns tt);
                ClientCall StartContinuousRecognition (Returns tt);
                Print [Lit "Listening for speech. Press Ctrl+C to stop."]])
    with (t ++ listening_log).
  destruct (keep_running_outcome fuel (t ++ listening_log))
    as [Hrun | (n & Hn & Hrun)]; rewrite Hrun; simpl;
    [intros Hm Hx; inversion Hm; subst; discriminate|].
  unfold bind, print, call_client.
  destruct (client_call world _ StopContinuousRecognition) as [[]|e]; simpl;
    [|intros Hm Hx; inversion Hm; subst; discriminate].
  destruct (client_call world _ ObsDisconnect) as [[]|e]; simpl;
    [|intros Hm Hx; inversion Hm; subst; discriminate].
  intros Hm _. exists n. split; [exact Hn|].
  rewrite <- Hm. unfold shutdown_log. rewrite <- !app_assoc. reflexivity.
Qed.

(** X4.  The script ends with exit status 0 only along one path: the
    overlay was connected and tested, recognition was started, Ctrl+C came
    during a sleep, and then recognition was stopped and the overlay
    disconnected, both calls returning. *)
Theorem exit_0_only_after_shutdown (fuel : nat) (t : trace) :
  exit_status (fst (script cfg world fuel t)) = Some 0%Z ->
  exists resp n,
    n < fuel /\
    script cfg world fuel t
    = (Normal tt,
       t ++ connected_log cfg resp ++ listening_log ++ idle_log n ++ shutdown_log).
Proof.
  unfold script, bind.
  destruct (connect_obs_outcomes t) as [(resp & Hrun) | (e & log & Hrun)];
    rewrite Hrun; [|discriminate].
  intros H. destruct (main_exit_0 fuel _ H) as (n & Hn & Hmain).
  exists resp, n. split; [exact Hn|].
  rewrite Hmain, <- app_assoc. reflexivity.
Qed.

End ProcessEdges.

Lemma test_subtitle_failure_exits_1_witness :
  exit_status (fst (script source_config (faulty_world None false) 5 [])) = Some 1%Z.
Proof.
  refine (proj2 (test_subtitle_failure_exits_1 source_config (faulty_world None false)
                   refused 5 [] _)).
  simpl. repeat split; reflexivity.
Defined.

Lemma start_failure_leaves_overlay_connected_witness :
  exit_status
    (fst (script source_config
            (faulty_world (Some StartContinuousRecognition) true) 5 []))
  = Some 1%Z.
Proof.
  refine (proj2 (start_failure_leaves_overlay_connected source_config
                   (faulty_world (Some StartContinuousRecognition) true)
                   refused {| response_repr := lit "ok" |} 5 [] _)).
  simpl. repeat split; reflexivity.
Defined.

Lemma stop_failure_skips_disconnect_witness :
  exit_status
    (fst (script source_config
            (faulty_world (Some StopContinuousRecognition) true) 5 []))
  = Some 1%Z.
Proof.
  refine (proj2 (stop_failure_skips_disconnect source_config
                   (faulty_world (Some StopContinuousRecognition) true)
                   refused {| response_repr := lit "ok" |} 2 5 [] _ _)).
  - lia.
  - simpl. repeat split; reflexivity.
Defined.

Lemma exit_0_only_after_shutdown_witness :
  exists resp n,
    n < 5 /\
    script source_config (mock_world good_day) 5 []
    = (Normal tt,
       [] ++ connected_log source_config resp ++ listening_log ++ idle_log n
         ++ shutdown_log).
Proof.
  apply (exit_0_only_after_shutdown source_config (mock_world good_day) 5 []).
  reflexivity.
Defined.

(* ================================================================= *)
(** ** More on the translator, the send loop and the handler *)

Section StripFacts.

Lemma lstrip_cases (s : str) :
  lstrip s = [] \/ exists c r, lstrip s = c :: r /\ isspace c = false.
Proof.
  induction s as [|c s IH]; simpl.
  - left. reflexivity.
  - destruct (isspace c) eqn:Hc; [exact IH|].
    right. exists c, s. split; [reflexivity | exact Hc].
Qed.

Lemma lstrip_snoc (c : char) (s : str) :
  isspace c = false -> lstrip (s ++ [c]) = lstrip s ++ [c].
Proof.
  intros Hc. induction s as [|d s IH]; simpl.
  - rewrite Hc. reflexivity.
  - destruct (isspace d); [exact IH | reflexivity].
Qed.

Lemma rstrip_cons (c : char) (s : str) :
  isspace c = false -> rstrip (c :: s) = c :: rstrip s.
Proof.
  intros Hc. unfold rstrip. simpl.
  rewrite (lstrip_snoc c (rev s) Hc), rev_app_distr. reflexivity.
Qed.

(** A stripped string is empty or starts with a character that is not
    whitespace. *)
Lemma strip_cases (s : str) :
  strip s = [] \/ exists c r, strip s = c :: r /\ isspace c = false.
Proof.
  unfold strip.
  destruct (lstrip_cases s) as [H | (c & r & H & Hc)]; rewrite H.
  - left. reflexivity.
  - right. exists c, (rstrip r). split; [apply rstrip_cons; exact Hc | exact Hc].
Qed.

Lemma lstrip_fixed (s : str) :
  (s = [] \/ exists c r, s = c :: r /\ isspace c = false) -> lstrip s = s.
Proof.
  intros [-> | (c & r & -> & Hc)]; simpl; [|rewrite Hc]; reflexivity.
Qed.

Lemma strip_idempotent (s : str) : strip (strip s) = strip s.
Proof.
  unfold strip at 1.
  rewrite (lstrip_fixed (strip s) (strip_cases s)).
  unfold strip, rstrip. rewrite rev_involutive.
  rewrite (lstrip_fixed (lstrip (rev (lstrip s)))); [reflexivity|].
  apply lstrip_cases.
Qed.

Lemma strip_has_word (s : str) : strip s <> [] -> split (strip s) <> [].
Proof.
  intros Hne. apply split_has_word.
  destruct (strip_cases s) as [H | (c & r & H & Hc)]; [congruence|].
  exists c. rewrite H. split; [left; reflexivity | exact Hc].
Qed.

End StripFacts.

Section HandlerEdges.

Variable cfg : config.
Variable world : services.

Lemma translation_of_stripped (r : pyresult completion) :
  strip (translation_of r) = translation_of r.
Proof.
  unfold translation_of.
  destruct r as [c|e]; [|reflexivity].
  destruct (contains_error c) as [[|]|e]; try reflexivity.
  destruct (choices_0_message_content c) as [[| n | content | items]|e];
    try reflexivity.
  apply strip_idempotent.
Qed.

Lemma translation_of_has_word (r : pyresult completion) :
  translation_of r <> [] -> split (translation_of r) <> [].
Proof.
  intros Hne. rewrite <- translation_of_stripped in *.
  apply strip_has_word. exact Hne.
Qed.

(** X5.  Whatever the chat client answers, the string [translate_text]
    returns neither starts nor ends with whitespace: stripping it again
    changes nothing; and it is empty or holds at least one word. *)
Theorem translate_text_result_is_stripped (text : str) (t : trace) :
  exists translated t',
    translate_text world text t = (Normal translated, t') /\
    strip translated = translated /\
    (translated = [] \/ split translated <> []).
Proof.
  destruct (translate_text_run world text t) as (log & Hrun & _).
  eexists _, _. split; [exact Hrun|]. split.
  - apply translation_of_stripped.
  - destruct (translation_of
                (chat_completions_create world t (translation_request text)))
      as [|c r] eqn:Htr.
    + left. reflexivity.
    + right. rewrite <- Htr. apply translation_of_has_word.
      rewrite Htr. discriminate.
Qed.

(** X6.  The send loop of lines 92-93 always runs to its end: every chunk
    is sent to the overlay exactly once, in order, also when overlay calls
    fail on the way. *)
Theorem for_chunk_in_sends_all (chunks : list str) :
  forall t,
    fst (for_chunk_in cfg world chunks t) = Normal tt /\
    overlay_updates (snd (for_chunk_in cfg world chunks t))
    = overlay_updates t ++ chunks.
Proof.
  induction chunks as [|chunk rest IH]; intros t; simpl.
  - rewrite app_nil_r. split; reflexivity.
  - unfold bind. rewrite update_obs_subtitles_run.
    destruct (IH (t ++ update_log cfg world chunk t)) as [Hr Hu].
    destruct (for_chunk_in cfg world rest (t ++ update_log cfg world chunk t))
      as [r t'] eqn:Hrun.
    simpl in *. split; [exact Hr|].
    rewrite Hu, overlay_updates_app, overlay_updates_update_log, <- app_assoc.
    reflexivity.
Qed.

(** X7.  For an event with reason [RecognizedSpeech] the handler returns
    only when the translation is the empty string, having sent it twice
    (full text, then the single empty chunk); for every other translation it
    sends the translation once and ends in [TypeError]. *)
Theorem on_recognized_speech_outcome (ev : SpeechRecognitionEventArgs) (t : trace) :
  result_reason (event_result ev) = RecognizedSpeech ->
  let translated :=
    translation_of
      (chat_completions_create world (t ++ [recognized_line ev])
         (translation_request (result_text (event_result ev)))) in
  (translated = [] ->
   fst (on_recognized cfg world ev t) = Normal tt /\
   overlay_updates (snd (on_recognized cfg world ev t))
   = overlay_updates t ++ [[]; []]) /\
  (translated <> [] ->
   fst (on_recognized cfg world ev t) = Raised (Exc TypeError) /\
   overlay_updates (snd (on_recognized cfg world ev t))
   = overlay_updates t ++ [translated]).
Proof.
  intros Hr translated.
  destruct (on_recognized_speech_run cfg world ev t Hr)
    as (tr & t1 & Htr & Hquiet & Hrun).
  destruct (translate_text_run world (result_text (event_result ev))
              (t ++ [recognized_line ev])) as (log & Htr' & _).
  rewrite Htr' in Htr. injection Htr as Heq _.
  fold translated in Heq. subst tr.
  rewrite Hrun. unfold display_subtitles. split; intros H.
  - rewrite display_subtitles_frame_blank by (rewrite H; reflexivity).
    simpl. split; [reflexivity|].
    rewrite !overlay_updates_app, !overlay_updates_update_log, Hquiet, H.
    simpl. rewrite <- !app_assoc. reflexivity.
  - rewrite display_subtitles_frame_words
      by (apply translation_of_has_word; exact H).
    simpl. split; [reflexivity|].
    rewrite !overlay_updates_app, overlay_updates_update_log, Hquiet.
    simpl. rewrite <- !app_assoc. reflexivity.
Qed.

(** X8.  When the chat client raises on a recognized utterance, the handler
    prints the failure, sends the placeholder "[Translation Error]" to the
    overlay as its one update and ends in [TypeError]. *)
Theorem translation_failure_shows_placeholder
    (e : exception) (ev : SpeechRecognitionEventArgs) (t : trace) :
  result_reason (event_result ev) = RecognizedSpeech ->
  chat_completions_create world (t ++ [recognized_line ev])
    (translation_request (result_text (event_result ev))) = Fails e ->
  let shown :=
    t ++ [ recognized_line ev;
           ChatCreate (translation_request (result_text (event_result ev))) (Fails e);
           Print [Lit "Error during translation: "; FExc e];
           Print [Lit "Translated (English): "; FStr translation_error] ] in
  on_recognized cfg world ev t
  = (Raised (Exc TypeError), shown ++ update_log cfg world translation_error shown) /\
  overlay_updates (snd (on_recognized cfg world ev t))
  = overlay_updates t ++ [translation_error].
Proof.
  intros Hr Hchat shown.
  assert (Hrun : on_recognized cfg world ev t
                 = (Raised (Exc TypeError),
                    shown ++ update_log cfg world translation_error shown)).
  { unfold on_recognized. rewrite Hr.
    unfold translate_text, try_except_Exception, bind, print, call_chat, lift, ret.
    unfold recognized_line in Hchat. rewrite Hchat. simpl.
    unfold display_subtitles.
    rewrite display_subtitles_frame_words by (vm_compute; discriminate).
    subst shown. unfold recognized_line. rewrite <- !app_assoc. reflexivity. }
  split; [exact Hrun|].
  rewrite Hrun. simpl.
  rewrite overlay_updates_app, overlay_updates_update_log.
  subst shown. rewrite overlay_updates_app. simpl. rewrite app_nil_r.
  reflexivity.
Qed.

End HandlerEdges.

Lemma on_recognized_speech_outcome_witness :
  fst (on_recognized source_config (mock_world good_day) (recognized godan_dag) [])
  = Raised (Exc TypeError) /\
  overlay_updates
    (snd (on_recognized source_config (mock_world good_day) (recognized godan_dag) []))
  = overlay_updates [] ++ [good_day].
Proof.
  refine (proj2 (on_recognized_speech_outcome source_config (mock_world good_day)
                   (recognized godan_dag) [] eq_refl) _).
  vm_compute. discriminate.
Defined.

Lemma translation_failure_shows_placeholder_witness :
  overlay_updates
    (snd (on_recognized source_config dead_world (recognized godan_dag) []))
  = overlay_updates [] ++ [translation_error].
Proof.
  exact (proj2 (translation_failure_shows_placeholder source_config dead_world
                  refused (recognized godan_dag) [] eq_refl eq_refl)).
Defined.

Section Isolation.

Variable cfg : config.

(** X9.  How [display_subtitles] ends depends on the text alone: it is the
    same in any two worlds and after any two histories, so no overlay outage
    and no overlay answer changes it. *)
Theorem display_subtitles_end_ignores_overlay
    (world1 world2 : services) (t1 t2 : trace) (text : str) :
  fst (display_subtitles cfg world1 text t1)
  = fst (display_subtitles cfg world2 text t2).
Proof.
  unfold display_subtitles.
  destruct (split text) as [|word rest] eqn:Hs.
  - rewrite !display_subtitles_frame_blank by exact Hs. reflexivity.
  - rewrite !display_subtitles_frame_words by (rewrite Hs; discriminate).
    reflexivity.
Qed.

(** X10.  The loop of lines 119-120 is left only through Ctrl+C: it never
    returns, raises nothing but [KeyboardInterrupt], and all it does is
    sleep one second at a time, every sleep but an interrupted last one
    uninterrupted. *)
Theorem idle_loop_left_only_by_interrupt (world : services) (fuel : nat) (t : trace) :
  match fst (keep_running world fuel t) with
  | Normal _ => False
  | Raised s => s = KeyboardInterrupt
  | Unfinished => True
  end /\
  exists n,
    n <= fuel /\
    (snd (keep_running world fuel t) = t ++ repeat (Sleep 1 false) n \/
     snd (keep_running world fuel t) = t ++ idle_log n).
Proof.
  destruct (keep_running_outcome world fuel t) as [Hrun | (n & Hn & Hrun)];
    rewrite Hrun; simpl.
  - split; [exact I|]. exists fuel. split; [lia | left; reflexivity].
  - split; [reflexivity|]. exists n. split; [lia | right; reflexivity].
Qed.

End Isolation.
